(** * pelicanconf.py: the site configuration module

    [pelicanconf.py] is a Python settings module: a straight-line sequence
    of one [from __future__ import] and thirteen assignments of literals to
    module globals.  It is embedded here as the list of its statements,
    executed over the module namespace (a finite map from names to Python
    values).  The settings record read by the site generator is projected
    from the namespace the execution leaves behind. *)

From Stdlib Require Import ZArith Ascii.
From stdpp Require Import gmap strings list fin_maps.

Local Open Scope string_scope.
Local Open Scope Z_scope.
Local Set Warnings "-register-all".

(** ** Python values and the statements the module is written in *)

Module Py.

(** The objects a settings module can bind.  Lists are part of the
    expression language although [pelicanconf.py] uses none: the parenthesised
    displays at lines 20-22 and 25-27 are tuples. *)
Inductive value : Type :=
| VNone
| VBool (b : bool)
| VInt (n : Z)
| VStr (s : string)
| VTuple (items : list value)
| VList (items : list value)
| VFeature (name : string).

(** Right-hand sides.  [EStr u s] is a string literal, [u] telling whether it
    carries the [u] prefix; under [unicode_literals] (line 3) both spellings
    denote a text string. *)
Inductive expr : Type :=
| ENone
| ETrue
| EFalse
| ENum (n : Z)
| EStr (u : bool) (s : string)
| ETuple (items : list expr)
| EList (items : list expr)
| EName (x : string).

Inductive stmt : Type :=
| FromFutureImport (feature : string)
| Assign (target : string) (rhs : expr).

(** Evaluation in a namespace; a name that is not bound raises [NameError]. *)
Fixpoint eval (ns : gmap string value) (e : expr) : option value :=
  match e with
  | ENone => Some VNone
  | ETrue => Some (VBool true)
  | EFalse => Some (VBool false)
  | ENum n => Some (VInt n)
  | EStr _ s => Some (VStr s)
  | ETuple items => VTuple <$> mapM (eval ns) items
  | EList items => VList <$> mapM (eval ns) items
  | EName x => ns !! x
  end.

(** The name a statement binds in the module namespace. *)
Definition target_of (s : stmt) : string :=
  match s with
  | FromFutureImport feature => feature
  | Assign target _ => target
  end.

Definition exec_stmt (ns : gmap string value) (s : stmt)
  : option (gmap string value) :=
  match s with
  | FromFutureImport feature => Some (<[feature := VFeature feature]> ns)
  | Assign target rhs => v ← eval ns rhs; Some (<[target := v]> ns)
  end.

(** Statements run top to bottom; the first exception aborts the load. *)
Fixpoint exec (prog : list stmt) (ns : gmap string value)
  : option (gmap string value) :=
  match prog with
  | [] => Some ns
  | s :: rest => ns' ← exec_stmt ns s; exec rest ns'
  end.

Definition targets (prog : list stmt) : list string := target_of <$> prog.

(** Names an expression reads. *)
Fixpoint names (e : expr) : list string :=
  match e with
  | ETuple items | EList items => mjoin (names <$> items)
  | EName x => [x]
  | _ => []
  end.

Definition stmt_names (s : stmt) : list string :=
  match s with
  | FromFutureImport _ => []
  | Assign _ rhs => names rhs
  end.

(** A statement is literal when its right-hand side reads no name. *)
Definition literal_stmt (s : stmt) : bool :=
  bool_decide (stmt_names s = []).

(** Objects that cannot be changed in place: everything but lists (and
    tuples holding one). *)
Fixpoint immutable (v : value) : bool :=
  match v with
  | VList _ => false
  | VTuple items => forallb immutable items
  | _ => true
  end.

End Py.

Import Py.

(** ** The module *)

(** [src/pelicanconf.py], statement by statement. *)
Definition pelicanconf : list stmt :=
  [ FromFutureImport "unicode_literals";
    Assign "AUTHOR" (EStr true "Daniel Hochman");
    Assign "SITENAME" (EStr true "/var/log/danielhochman");
    Assign "SITEURL" (EStr false "http://localhost:8000");
    Assign "TIMEZONE" (EStr false "America/Los_Angeles");
    Assign "DEFAULT_LANG" (EStr true "en");
    Assign "FEED_ALL_ATOM" ENone;
    Assign "CATEGORY_FEED_ATOM" ENone;
    Assign "TRANSLATION_FEED_ATOM" ENone;
    Assign "DEFAULT_PAGINATION" (ENum 1);
    Assign "MENUITEMS"
      (ETuple [ETuple [EStr false "Archives"; EStr false "/archives.html"]]);
    Assign "DISPLAY_PAGES_ON_MENU" ETrue;
    Assign "FILES_TO_COPY"
      (ETuple [ETuple [EStr false "extra/favicon.ico"; EStr false "favicon.ico"]]);
    Assign "THEME" (EStr false "themes/pelican-foundation-mod") ].

(** ** The settings record *)

Record SiteConfig : Type := mkSiteConfig {
  author : string;
  site_name : string;
  site_url : string;
  timezone : string;
  default_language : string;
  feed_all_atom : option string;
  category_feed_atom : option string;
  translation_feed_atom : option string;
  default_pagination : Z;
  menu_items : list (string * string);
  display_pages_on_menu : bool;
  files_to_copy : list (string * string);
  theme : string
}.

Definition as_str (v : value) : option string :=
  match v with VStr s => Some s | _ => None end.

(** A feed flag is a string or [None]. *)
Definition as_opt_str (v : value) : option (option string) :=
  match v with
  | VNone => Some None
  | VStr s => Some (Some s)
  | _ => None
  end.

Definition as_int (v : value) : option Z :=
  match v with VInt n => Some n | _ => None end.

Definition as_bool (v : value) : option bool :=
  match v with VBool b => Some b | _ => None end.

(** A sequence element that is a two-element sequence of strings. *)
Definition as_str_pair (v : value) : option (string * string) :=
  match v with
  | VTuple [VStr a; VStr b] | VList [VStr a; VStr b] => Some (a, b)
  | _ => None
  end.

Definition as_pairs (v : value) : option (list (string * string)) :=
  match v with
  | VTuple items | VList items => mapM as_str_pair items
  | _ => None
  end.

(** Projection of the module globals onto the record's fields. *)
Definition read_settings (ns : gmap string value) : option SiteConfig :=
  a ← ns !! "AUTHOR" ≫= as_str;
  n ← ns !! "SITENAME" ≫= as_str;
  u ← ns !! "SITEURL" ≫= as_str;
  tz ← ns !! "TIMEZONE" ≫= as_str;
  lang ← ns !! "DEFAULT_LANG" ≫= as_str;
  f1 ← ns !! "FEED_ALL_ATOM" ≫= as_opt_str;
  f2 ← ns !! "CATEGORY_FEED_ATOM" ≫= as_opt_str;
  f3 ← ns !! "TRANSLATION_FEED_ATOM" ≫= as_opt_str;
  pg ← ns !! "DEFAULT_PAGINATION" ≫= as_int;
  menu ← ns !! "MENUITEMS" ≫= as_pairs;
  dp ← ns !! "DISPLAY_PAGES_ON_MENU" ≫= as_bool;
  files ← ns !! "FILES_TO_COPY" ≫= as_pairs;
  th ← ns !! "THEME" ≫= as_str;
  Some (mkSiteConfig a n u tz lang f1 f2 f3 pg menu dp files th).

(** Loading: run the module in the namespace the interpreter hands it
    ([__name__], [__file__], ...), then read the settings. *)
Definition load (ns0 : gmap string value) : option SiteConfig :=
  exec pelicanconf ns0 ≫= read_settings.

(** The record the module denotes. *)
Definition site_config : SiteConfig :=
  {| author := "Daniel Hochman";
     site_name := "/var/log/danielhochman";
     site_url := "http://localhost:8000";
     timezone := "America/Los_Angeles";
     default_language := "en";
     feed_all_atom := None;
     category_feed_atom := None;
     translation_feed_atom := None;
     default_pagination := 1;
     menu_items := [("Archives", "/archives.html")];
     display_pages_on_menu := true;
     files_to_copy := [("extra/favicon.ico", "favicon.ico")];
     theme := "themes/pelican-foundation-mod" |}.

(** The namespace the module leaves behind when started in [ns0]: its
    fourteen bindings, in source order, on top of [ns0]. *)
Definition bindings : list (string * value) :=
  [ ("unicode_literals", VFeature "unicode_literals");
    ("AUTHOR", VStr "Daniel Hochman");
    ("SITENAME", VStr "/var/log/danielhochman");
    ("SITEURL", VStr "http://localhost:8000");
    ("TIMEZONE", VStr "America/Los_Angeles");
    ("DEFAULT_LANG", VStr "en");
    ("FEED_ALL_ATOM", VNone);
    ("CATEGORY_FEED_ATOM", VNone);
    ("TRANSLATION_FEED_ATOM", VNone);
    ("DEFAULT_PAGINATION", VInt 1);
    ("MENUITEMS", VTuple [VTuple [VStr "Archives"; VStr "/archives.html"]]);
    ("DISPLAY_PAGES_ON_MENU", VBool true);
    ("FILES_TO_COPY",
       VTuple [VTuple [VStr "extra/favicon.ico"; VStr "favicon.ico"]]);
    ("THEME", VStr "themes/pelican-foundation-mod") ].

Definition module_globals (ns0 : gmap string value) : gmap string value :=
  foldl (λ ns kv, <[kv.1 := kv.2]> ns) ns0 bindings.

(** ** Vocabulary of the specification *)

(** Modelled from the spec: the feed generator is not part of this
    repository; the spec says of the three feed flags that
    "unset/null disables" the corresponding Atom feed. *)
Definition feed_generated (flag : option string) : bool :=
  match flag with
  | Some _ => true
  | None => false
  end.

(** A site-relative path begins with a slash. *)
Definition site_relative (path : string) : bool :=
  match path with
  | String "/"%char _ => true
  | _ => false
  end.

(** A syntactically valid relative path: not empty, not absolute. *)
Definition relative_path (path : string) : bool :=
  match path with
  | "" => false
  | String "/"%char _ => false
  | _ => true
  end.

(** ** Facts about the statement language *)

Section Statements.
Implicit Types (ns : gmap string value) (e : expr) (s : stmt).
Implicit Types (prog : list stmt) (x : string).

(** Induction over expressions that reaches inside tuple and list
    displays. *)
Lemma expr_nested_ind (P : expr → Prop) :
  P ENone → P ETrue → P EFalse → (∀ n, P (ENum n)) →
  (∀ u str, P (EStr u str)) →
  (∀ items, Forall P items → P (ETuple items)) →
  (∀ items, Forall P items → P (EList items)) →
  (∀ x, P (EName x)) →
  ∀ e, P e.
Proof.
  intros HN HT HF Hnum Hstr Htup Hlst Hname.
  fix IH 1. intros [| | | n | u str | items | items | x];
    [exact HN | exact HT | exact HF | apply Hnum | apply Hstr
    | | | apply Hname].
  - apply Htup. induction items as [|e items IHitems]; constructor; auto.
  - apply Hlst. induction items as [|e items IHitems]; constructor; auto.
Qed.

(** Two namespaces that agree on the names an expression reads give it
    the same value. *)
Lemma eval_agree ns ns' e :
  Forall (λ x, ns !! x = ns' !! x) (names e) → eval ns e = eval ns' e.
Proof.
  induction e as [| | | n | u str | items IH | items IH | x]
    using expr_nested_ind; simpl; intros Hag; try done.
  - f_equal. apply Forall_mapM_ext.
    induction IH as [|e items He _ IHitems]; [constructor|].
    simpl in Hag. apply Forall_app in Hag as [Hag1 Hag2].
    constructor; auto.
  - f_equal. apply Forall_mapM_ext.
    induction IH as [|e items He _ IHitems]; [constructor|].
    simpl in Hag. apply Forall_app in Hag as [Hag1 Hag2].
    constructor; auto.
  - by apply Forall_inv in Hag.
Qed.

(** An expression that reads no name has one value, whatever the
    namespace. *)
Lemma eval_literal ns ns' e : names e = [] → eval ns e = eval ns' e.
Proof. intros Hlit. apply eval_agree. rewrite Hlit. constructor. Qed.

(** It also cannot raise. *)
Lemma eval_literal_total ns e : names e = [] → is_Some (eval ns e).
Proof.
  induction e as [| | | n | u str | items IH | items IH | x]
    using expr_nested_ind; simpl; intros Hlit; try done.
  - apply fmap_is_Some, mapM_is_Some.
    induction IH as [|e items He _ IHitems]; [constructor|].
    simpl in Hlit. apply app_eq_nil in Hlit as [H1 H2].
    constructor; auto.
  - apply fmap_is_Some, mapM_is_Some.
    induction IH as [|e items He _ IHitems]; [constructor|].
    simpl in Hlit. apply app_eq_nil in Hlit as [H1 H2].
    constructor; auto.
Qed.

Lemma exec_stmt_literal_total ns s :
  literal_stmt s = true → is_Some (exec_stmt ns s).
Proof.
  unfold literal_stmt. intros Hlit%bool_decide_eq_true.
  destruct s as [feature | target rhs]; simpl in *; [done|].
  destruct (eval_literal_total ns rhs Hlit) as [v ->]. done.
Qed.

(** A statement touches its own target only. *)
Lemma exec_stmt_frame ns ns' s x :
  exec_stmt ns s = Some ns' → x ≠ target_of s → ns' !! x = ns !! x.
Proof.
  destruct s as [feature | target rhs]; simpl; intros Hex Hne.
  - injection Hex as <-. by rewrite lookup_insert_ne.
  - destruct (eval ns rhs) as [v|]; [|done].
    injection Hex as <-. by rewrite lookup_insert_ne.
Qed.

(** ... and leaves that target bound. *)
Lemma exec_stmt_bound ns ns' s :
  exec_stmt ns s = Some ns' → is_Some (ns' !! target_of s).
Proof.
  destruct s as [feature | target rhs]; simpl; intros Hex.
  - injection Hex as <-. rewrite lookup_insert_eq. done.
  - destruct (eval ns rhs) as [v|]; [|done].
    injection Hex as <-. rewrite lookup_insert_eq. done.
Qed.

Lemma exec_app prog1 prog2 ns :
  exec (prog1 ++ prog2) ns = exec prog1 ns ≫= exec prog2.
Proof.
  revert ns. induction prog1 as [|s prog1 IH]; intros ns; simpl; [done|].
  destruct (exec_stmt ns s) as [ns'|]; simpl; [apply IH | done].
Qed.

(** A run of literal statements always completes. *)
Lemma exec_literal_total prog ns :
  forallb literal_stmt prog = true → is_Some (exec prog ns).
Proof.
  revert ns. induction prog as [|s prog IH]; intros ns; simpl; [done|].
  intros [Hs Hprog]%andb_prop.
  destruct (exec_stmt_literal_total ns s Hs) as [ns' ->]. simpl. auto.
Qed.

(** Names the statements do not bind keep their value. *)
Lemma exec_frame prog ns ns' x :
  exec prog ns = Some ns' → x ∉ targets prog → ns' !! x = ns !! x.
Proof.
  revert ns. induction prog as [|s prog IH]; intros ns; simpl.
  - by intros [= <-].
  - intros Hex Hnot. apply not_elem_of_cons in Hnot as [Hne Hnot].
    destruct (exec_stmt ns s) as [ns1|] eqn:Hs; [|done]. simpl in Hex.
    rewrite (IH _ Hex Hnot). by eapply exec_stmt_frame.
Qed.

(** Every target is bound once the statements have run. *)
Lemma exec_bound prog ns ns' x :
  exec prog ns = Some ns' → x ∈ targets prog → is_Some (ns' !! x).
Proof.
  revert ns. induction prog as [|s prog IH]; intros ns; simpl.
  - intros _ Hin. by apply elem_of_nil in Hin.
  - intros Hex Hin.
    destruct (exec_stmt ns s) as [ns1|] eqn:Hs; [|done]. simpl in Hex.
    destruct (decide (x ∈ targets prog)) as [Hlater | Hnot]; [eauto|].
    apply elem_of_cons in Hin as [-> | Hin]; [|done].
    rewrite (exec_frame _ _ _ _ Hex Hnot). by eapply exec_stmt_bound.
Qed.

(** Literal statements bind the same values from any two starting
    namespaces. *)
Lemma exec_literal_agree prog ns1 ns2 ns1' ns2' x :
  forallb literal_stmt prog = true →
  exec prog ns1 = Some ns1' → exec prog ns2 = Some ns2' →
  x ∈ targets prog → ns1' !! x = ns2' !! x.
Proof.
  revert ns1 ns2. induction prog as [|s prog IH]; intros ns1 ns2; simpl.
  - intros _ _ _ Hin. by apply elem_of_nil in Hin.
  - intros [Hs Hprog]%andb_prop Hex1 Hex2 Hin.
    destruct (exec_stmt ns1 s) as [m1|] eqn:Hs1; [|done].
    destruct (exec_stmt ns2 s) as [m2|] eqn:Hs2; [|done].
    simpl in Hex1, Hex2.
    destruct (decide (x ∈ targets prog)) as [Hlater | Hnot]; [eauto|].
    apply elem_of_cons in Hin as [-> | Hin]; [|done].
    rewrite (exec_frame _ _ _ _ Hex1 Hnot), (exec_frame _ _ _ _ Hex2 Hnot).
    unfold literal_stmt in Hs. apply bool_decide_eq_true in Hs.
    destruct s as [feature | target rhs]; simpl in *.
    + injection Hs1 as <-. injection Hs2 as <-.
      by rewrite !lookup_insert_eq.
    + rewrite (eval_literal ns1 ns2 rhs Hs) in Hs1.
      destruct (eval ns2 rhs) as [v|]; [|done].
      injection Hs1 as <-. injection Hs2 as <-.
      by rewrite !lookup_insert_eq.
Qed.

(** Once a target is bound, later statements that do not rebind it leave
    it as it is. *)
Lemma exec_binding_persists pre s post ns ns_mid ns_fin :
  target_of s ∉ targets post →
  exec (pre ++ [s]) ns = Some ns_mid →
  exec (pre ++ s :: post) ns = Some ns_fin →
  ns_fin !! target_of s = ns_mid !! target_of s.
Proof.
  intros Hnot Hmid Hfin.
  rewrite cons_middle, app_assoc, exec_app, Hmid in Hfin. simpl in Hfin.
  by eapply exec_frame.
Qed.

End Statements.

(** ** The module, executed *)

Lemma pelicanconf_literal : forallb literal_stmt pelicanconf = true.
Proof. reflexivity. Qed.

Lemma pelicanconf_targets_NoDup : NoDup (targets pelicanconf).
Proof. apply (bool_decide_unpack _). vm_compute. exact I. Qed.

(** Running the module cannot fail and leaves [module_globals]. *)
Lemma exec_pelicanconf ns0 :
  exec pelicanconf ns0 = Some (module_globals ns0).
Proof. reflexivity. Qed.

(** Reading a name from a namespace built by successive bindings: the last
    binding of the name wins, and names never bound show through. *)
Fixpoint last_binding (x : string) (bs : list (string * value))
    (below : option value) : option value :=
  match bs with
  | [] => below
  | (k, v) :: bs => last_binding x bs (if decide (k = x) then Some v else below)
  end.

Lemma lookup_foldl_insert (bs : list (string * value))
    (ns0 : gmap string value) (x : string) :
  foldl (λ ns kv, <[kv.1 := kv.2]> ns) ns0 bs !! x
  = last_binding x bs (ns0 !! x).
Proof.
  revert ns0. induction bs as [|[k v] bs IH]; intros ns0; simpl; [done|].
  rewrite IH, lookup_insert. done.
Qed.

Lemma lookup_module_globals (ns0 : gmap string value) (x : string) :
  module_globals ns0 !! x = last_binding x bindings (ns0 !! x).
Proof. apply lookup_foldl_insert. Qed.

Lemma read_module_globals ns0 :
  read_settings (module_globals ns0) = Some site_config.
Proof.
  unfold read_settings. rewrite !lookup_module_globals. reflexivity.
Qed.

Lemma load_site_config ns0 : load ns0 = Some site_config.
Proof.
  unfold load. rewrite exec_pelicanconf. simpl. apply read_module_globals.
Qed.

(** Every name the module binds ends up bound to an object that cannot be
    changed in place. *)
Lemma module_globals_immutable (ns0 : gmap string value) :
  Forall (λ x, ∃ v, module_globals ns0 !! x = Some v ∧ immutable v = true)
         (targets pelicanconf).
Proof.
  repeat constructor;
    (rewrite lookup_module_globals; eexists; split; reflexivity).
Qed.

(** What a literal statement binds does not depend on where it runs. *)
Lemma exec_stmt_literal_value (ns ns' m : gmap string value) (s : stmt) :
  literal_stmt s = true → exec_stmt ns s = Some m →
  exec_stmt ns' s ≫= (.!! target_of s) = m !! target_of s.
Proof.
  unfold literal_stmt. intros Hlit%bool_decide_eq_true Hex.
  destruct s as [feature | target rhs]; simpl in *.
  - injection Hex as <-. by rewrite !lookup_insert_eq.
  - rewrite (eval_literal ns' ns rhs Hlit).
    destruct (eval ns rhs) as [v|]; [|done].
    injection Hex as <-. simpl. by rewrite !lookup_insert_eq.
Qed.

(** ** The claims of the specification *)

(** C1. Loading the configuration, from whatever namespace the interpreter
    starts the module in, succeeds and yields a record whose [site_name] is
    "/var/log/danielhochman", whose [default_pagination] is 1 and whose
    [menu_items] is the single pair ("Archives", "/archives.html"). *)
Theorem load_example_scenario (ns0 : gmap string value) :
  ∃ c, load ns0 = Some c
       ∧ site_name c = "/var/log/danielhochman"
       ∧ default_pagination c = 1
       ∧ menu_items c = [("Archives", "/archives.html")].
Proof. exists site_config. split; [apply load_site_config | done]. Qed.

(** C2. Each of the three feed flags is read as a string or null; the module
    binds all three to [None], so all three fields are null and no Atom feed
    is generated for any of them. *)
Theorem feed_flags_disabled (ns0 : gmap string value) :
  ∃ ns c, exec pelicanconf ns0 = Some ns
          ∧ read_settings ns = Some c
          ∧ ns !! "FEED_ALL_ATOM" = Some VNone
          ∧ ns !! "CATEGORY_FEED_ATOM" = Some VNone
          ∧ ns !! "TRANSLATION_FEED_ATOM" = Some VNone
          ∧ ns !! "FEED_ALL_ATOM" ≫= as_opt_str = Some (feed_all_atom c)
          ∧ ns !! "CATEGORY_FEED_ATOM" ≫= as_opt_str
            = Some (category_feed_atom c)
          ∧ ns !! "TRANSLATION_FEED_ATOM" ≫= as_opt_str
            = Some (translation_feed_atom c)
          ∧ feed_all_atom c = None
          ∧ category_feed_atom c = None
          ∧ translation_feed_atom c = None
          ∧ feed_generated (feed_all_atom c) = false
          ∧ feed_generated (category_feed_atom c) = false
          ∧ feed_generated (translation_feed_atom c) = false.
Proof.
  exists (module_globals ns0), site_config.
  split; [apply exec_pelicanconf|]. split; [apply read_module_globals|].
  rewrite !lookup_module_globals. repeat split.
Qed.

(** C3. Loading is deterministic: two loads, even when started in different
    namespaces, both succeed, bind every name of the module to the same
    value, and yield the same record. *)
Theorem load_deterministic (ns1 ns2 : gmap string value) :
  ∃ m1 m2 c, exec pelicanconf ns1 = Some m1
             ∧ exec pelicanconf ns2 = Some m2
             ∧ Forall (λ x, m1 !! x = m2 !! x) (targets pelicanconf)
             ∧ read_settings m1 = Some c
             ∧ read_settings m2 = Some c
             ∧ load ns1 = load ns2.
Proof.
  destruct (exec_literal_total pelicanconf ns1 pelicanconf_literal)
    as [m1 H1].
  destruct (exec_literal_total pelicanconf ns2 pelicanconf_literal)
    as [m2 H2].
  exists m1, m2, site_config. repeat split; try done.
  - apply Forall_forall. intros x Hx.
    by eapply exec_literal_agree; [apply pelicanconf_literal | | |].
  - rewrite exec_pelicanconf in H1. injection H1 as <-.
    apply read_module_globals.
  - rewrite exec_pelicanconf in H2. injection H2 as <-.
    apply read_module_globals.
  - by rewrite !load_site_config.
Qed.

(** C4. The record is immutable after load.  Take any statement [s] of the
    module, with the statements [pre] before it and [post] after it.  Running
    the module up to and including [s] binds the field [s] assigns to an
    object [v] that cannot be changed in place; no other statement of the
    module binds that field, before or after, so at the end of the load the
    field still holds [v], and that is what reading the settings returns.
    [s] reads no other name, and binds [v] in every namespace: the field is
    derived from no other field. *)
Theorem config_immutable (ns0 : gmap string value)
    (pre post : list stmt) (s : stmt)
    (Hsplit : pelicanconf = (pre ++ s :: post)%list) :
  ∃ ns_mid ns_fin v,
    exec (pre ++ [s])%list ns0 = Some ns_mid
    ∧ exec pelicanconf ns0 = Some ns_fin
    ∧ ns_mid !! target_of s = Some v
    ∧ ns_fin !! target_of s = Some v
    ∧ immutable v = true
    ∧ (target_of s ∉ targets pre)
    ∧ (target_of s ∉ targets post)
    ∧ stmt_names s = []
    ∧ (∀ ns, exec_stmt ns s ≫= (.!! target_of s) = Some v)
    ∧ read_settings ns_fin = Some site_config.
Proof.
  pose proof pelicanconf_literal as Hlit.
  pose proof pelicanconf_targets_NoDup as Hnd.
  pose proof (exec_pelicanconf ns0) as Hfin.
  pose proof (module_globals_immutable ns0) as Himm.
  rewrite Hsplit in Hlit, Hnd, Hfin. unfold targets in Hnd, Himm.
  rewrite Hsplit in Himm.
  rewrite forallb_app in Hlit. apply andb_prop in Hlit as [Hpre Hrest].
  simpl in Hrest. apply andb_prop in Hrest as [Hs Hpost].
  rewrite fmap_app, fmap_cons in Hnd, Himm.
  apply NoDup_app in Hnd as (_ & Hfresh & Hnd).
  apply NoDup_cons in Hnd as [Hlater _].
  destruct (exec_literal_total pre ns0 Hpre) as [ns_pre Hex_pre].
  destruct (exec_stmt_literal_total ns_pre s Hs) as [ns_mid Hex_s].
  assert (Hmid : exec (pre ++ [s])%list ns0 = Some ns_mid).
  { rewrite exec_app, Hex_pre. simpl. by rewrite Hex_s. }
  apply Forall_app in Himm as [_ Himm].
  apply Forall_inv in Himm as (v & Hv & Hvimm).
  pose proof (exec_binding_persists pre s post ns0 ns_mid _ Hlater Hmid Hfin)
    as Hkeep.
  rewrite Hv in Hkeep.
  exists ns_mid, (module_globals ns0), v.
  rewrite Hsplit. repeat split; try done.
  - intros Hin. by apply (Hfresh _ Hin), elem_of_cons; left.
  - unfold literal_stmt in Hs. by apply bool_decide_eq_true in Hs.
  - intros ns. by rewrite (exec_stmt_literal_value ns_pre ns ns_mid s Hs Hex_s).
  - apply read_module_globals.
Qed.

Lemma config_immutable_witness :
  pelicanconf
  = ([ FromFutureImport "unicode_literals";
       Assign "AUTHOR" (EStr true "Daniel Hochman") ]
     ++ Assign "SITENAME" (EStr true "/var/log/danielhochman")
     :: drop 3 pelicanconf)%list
  ∧ ∃ ns_mid ns_fin v,
      exec ([ FromFutureImport "unicode_literals";
              Assign "AUTHOR" (EStr true "Daniel Hochman") ]
            ++ [Assign "SITENAME" (EStr true "/var/log/danielhochman")])%list
           ∅ = Some ns_mid
      ∧ exec pelicanconf ∅ = Some ns_fin
      ∧ ns_mid !! "SITENAME" = Some v
      ∧ ns_fin !! "SITENAME" = Some v
      ∧ immutable v = true.
Proof.
  split; [reflexivity|].
  destruct (config_immutable ∅
              [ FromFutureImport "unicode_literals";
                Assign "AUTHOR" (EStr true "Daniel Hochman") ]
              (drop 3 pelicanconf)
              (Assign "SITENAME" (EStr true "/var/log/danielhochman"))
              eq_refl)
    as (ns_mid & ns_fin & v & H1 & H2 & H3 & H4 & H5 & _).
  exists ns_mid, ns_fin, v. repeat split; assumption.
Defined.

(** C5. [default_pagination] is a positive integer: the module binds
    [DEFAULT_PAGINATION] to an [int] greater than zero. *)
Theorem default_pagination_positive (ns0 : gmap string value) :
  ∃ ns n c, exec pelicanconf ns0 = Some ns
            ∧ ns !! "DEFAULT_PAGINATION" = Some (VInt n)
            ∧ read_settings ns = Some c
            ∧ default_pagination c = n
            ∧ 0 < n.
Proof.
  exists (module_globals ns0), 1, site_config.
  split; [apply exec_pelicanconf|].
  rewrite lookup_module_globals, read_module_globals. repeat split; done.
Qed.

(** C6. [author] and [site_name] are strings, and neither is empty. *)
Theorem author_site_name_nonempty (ns0 : gmap string value) :
  ∃ ns a n c, exec pelicanconf ns0 = Some ns
              ∧ ns !! "AUTHOR" = Some (VStr a)
              ∧ ns !! "SITENAME" = Some (VStr n)
              ∧ read_settings ns = Some c
              ∧ author c = a
              ∧ site_name c = n
              ∧ (0 < String.length a)%nat
              ∧ (0 < String.length n)%nat.
Proof.
  exists (module_globals ns0), "Daniel Hochman", "/var/log/danielhochman",
    site_config.
  split; [apply exec_pelicanconf|].
  rewrite !lookup_module_globals, read_module_globals.
  repeat split; simpl; lia.
Qed.

(** C7. [menu_items] is an ordered sequence (a tuple) each of whose elements
    is a pair of exactly two strings, a label and a path, and every path
    begins with "/". *)
Theorem menu_items_wellformed (ns0 : gmap string value) :
  ∃ ns items c,
    exec pelicanconf ns0 = Some ns
    ∧ ns !! "MENUITEMS" = Some (VTuple items)
    ∧ Forall (λ item, ∃ label path,
                item = VTuple [VStr label; VStr path]
                ∧ site_relative path = true) items
    ∧ read_settings ns = Some c
    ∧ mapM as_str_pair items = Some (menu_items c)
    ∧ Forall (λ entry, site_relative entry.2 = true) (menu_items c).
Proof.
  exists (module_globals ns0),
    [VTuple [VStr "Archives"; VStr "/archives.html"]], site_config.
  split; [apply exec_pelicanconf|].
  rewrite lookup_module_globals, read_module_globals.
  repeat split; repeat constructor. by exists "Archives", "/archives.html".
Qed.

(** C8. Every pair in [files_to_copy] consists of two syntactically valid
    relative paths: neither the source nor the destination is empty or
    absolute. *)
Theorem files_to_copy_relative (ns0 : gmap string value) :
  ∃ ns items c,
    exec pelicanconf ns0 = Some ns
    ∧ ns !! "FILES_TO_COPY" = Some (VTuple items)
    ∧ Forall (λ item, ∃ source dest,
                item = VTuple [VStr source; VStr dest]
                ∧ relative_path source = true
                ∧ relative_path dest = true) items
    ∧ read_settings ns = Some c
    ∧ mapM as_str_pair items = Some (files_to_copy c)
    ∧ Forall (λ entry, relative_path entry.1 = true
                       ∧ relative_path entry.2 = true) (files_to_copy c).
Proof.
  exists (module_globals ns0),
    [VTuple [VStr "extra/favicon.ico"; VStr "favicon.ico"]], site_config.
  split; [apply exec_pelicanconf|].
  rewrite lookup_module_globals, read_module_globals.
  repeat split; repeat constructor.
  by exists "extra/favicon.ico", "favicon.ico".
Qed.

(** C9. [display_pages_on_menu] is the boolean [True]. *)
Theorem display_pages_on_menu_true (ns0 : gmap string value) :
  ∃ ns c, exec pelicanconf ns0 = Some ns
          ∧ ns !! "DISPLAY_PAGES_ON_MENU" = Some (VBool true)
          ∧ read_settings ns = Some c
          ∧ display_pages_on_menu c = true.
Proof.
  exists (module_globals ns0), site_config.
  split; [apply exec_pelicanconf|].
  rewrite lookup_module_globals, read_module_globals. repeat split.
Qed.

(** C10. [files_to_copy] holds exactly one pair, from source path
    "extra/favicon.ico" to destination path "favicon.ico". *)
Theorem files_to_copy_single_pair (ns0 : gmap string value) :
  ∃ ns c, exec pelicanconf ns0 = Some ns
          ∧ ns !! "FILES_TO_COPY"
            = Some (VTuple [VTuple [VStr "extra/favicon.ico";
                                    VStr "favicon.ico"]])
          ∧ read_settings ns = Some c
          ∧ files_to_copy c = [("extra/favicon.ico", "favicon.ico")]
          ∧ length (files_to_copy c) = 1%nat.
Proof.
  exists (module_globals ns0), site_config.
  split; [apply exec_pelicanconf|].
  rewrite lookup_module_globals, read_module_globals. repeat split.
Qed.

(** ** Further properties of the module *)

Section Reordering.
Implicit Types (ns : gmap string value) (s : stmt) (prog : list stmt).



(** The names bound after a run: those bound before, and the targets. *)
Lemma exec_dom prog ns ns' :
  exec prog ns = Some ns' →
  dom ns' = dom ns ∪ list_to_set (targets prog).
Proof.
  revert ns. induction prog as [|s prog IH]; intros ns Hex.
  - injection Hex as <-.
    change (targets []) with (@nil string).
    by rewrite list_to_set_nil, (right_id_L ∅ (∪)).
  - change (exec (s :: prog) ns) with (exec_stmt ns s ≫= exec prog) in Hex.
    destruct (exec_stmt ns s) as [m|] eqn:Hs; [|done]. simpl in Hex.
    rewrite (IH _ Hex).
    change (targets (s :: prog)) with (target_of s :: targets prog).
    rewrite list_to_set_cons.
    assert (dom m = {[target_of s]} ∪ dom ns) as ->.
    { destruct s as [feature | target rhs]; simpl in *.
      - injection Hs as <-. apply dom_insert_L.
      - destruct (eval ns rhs) as [v|]; [|done].
        injection Hs as <-. apply dom_insert_L. }
    by rewrite (assoc_L (∪)), (comm_L (∪) (dom ns)).
Qed.

End Reordering.

(** Binding a list of names twice over is the same as binding it once. *)
Lemma last_binding_twice (x : string) (bs : list (string * value))
    (below : option value) :
  last_binding x bs (last_binding x bs below) = last_binding x bs below.
Proof.
  revert below. induction bs as [|[k v] bs IH]; intros below; simpl; [done|].
  destruct (decide (k = x)); [done | apply IH].
Qed.

(** X1. The module binds nothing but its own fourteen names: any other name
    (a setting the file leaves commented out, or whatever the interpreter
    put in the namespace) is after the load exactly what it was before. *)
Theorem load_leaves_other_names (ns0 : gmap string value) (x : string)
    (Hother : x ∉ targets pelicanconf) :
  ∃ ns, exec pelicanconf ns0 = Some ns ∧ ns !! x = ns0 !! x.
Proof.
  destruct (exec_literal_total pelicanconf ns0 pelicanconf_literal)
    as [ns Hex].
  exists ns. split; [done|]. by eapply exec_frame.
Qed.

Lemma load_leaves_other_names_witness :
  ("RELATIVE_URLS" ∉ targets pelicanconf)
  ∧ ∃ ns, exec pelicanconf ∅ = Some ns
          ∧ ns !! "RELATIVE_URLS" = (∅ : gmap string value) !! "RELATIVE_URLS".
Proof.
  assert (Hother : "RELATIVE_URLS" ∉ targets pelicanconf).
  { apply (bool_decide_unpack _). vm_compute. exact I. }
  split; [exact Hother|].
  exact (load_leaves_other_names ∅ "RELATIVE_URLS" Hother).
Defined.

(** X2. Running the module again in the namespace a first run left behind
    (a reload) succeeds and changes nothing. *)
Theorem reload_changes_nothing (ns0 : gmap string value) :
  ∃ ns, exec pelicanconf ns0 = Some ns ∧ exec pelicanconf ns = Some ns.
Proof.
  exists (module_globals ns0). split; [apply exec_pelicanconf|].
  rewrite exec_pelicanconf. f_equal. apply map_eq. intros x.
  rewrite !lookup_module_globals. apply last_binding_twice.
Qed.



(** X4. After the load the namespace binds exactly the names it bound
    before together with the fourteen names of the module. *)
Theorem load_binds_exactly (ns0 : gmap string value) :
  ∃ ns, exec pelicanconf ns0 = Some ns
        ∧ dom ns = dom ns0 ∪ list_to_set (targets pelicanconf)
        ∧ length (targets pelicanconf) = 14%nat.
Proof.
  destruct (exec_literal_total pelicanconf ns0 pelicanconf_literal)
    as [ns Hex].
  exists ns. split; [done|]. split; [by apply exec_dom | done].
Qed.

(** X5. The settings no claim mentions: the load yields [author]
    "Daniel Hochman", [site_url] "http://localhost:8000", [timezone]
    "America/Los_Angeles", [default_language] "en" and [theme]
    "themes/pelican-foundation-mod" (not the commented-out
    "pelican-foundation"), whatever the starting namespace bound these
    names to. *)
Theorem load_remaining_settings (ns0 : gmap string value) :
  ∃ ns c, exec pelicanconf ns0 = Some ns
          ∧ read_settings ns = Some c
          ∧ ns !! "AUTHOR" = Some (VStr (author c))
          ∧ ns !! "SITEURL" = Some (VStr (site_url c))
          ∧ ns !! "TIMEZONE" = Some (VStr (timezone c))
          ∧ ns !! "DEFAULT_LANG" = Some (VStr (default_language c))
          ∧ ns !! "THEME" = Some (VStr (theme c))
          ∧ author c = "Daniel Hochman"
          ∧ site_url c = "http://localhost:8000"
          ∧ timezone c = "America/Los_Angeles"
          ∧ default_language c = "en"
          ∧ theme c = "themes/pelican-foundation-mod".
Proof.
  exists (module_globals ns0), site_config.
  split; [apply exec_pelicanconf|]. split; [apply read_module_globals|].
  rewrite !lookup_module_globals. repeat split.
Qed.
